(** * UndoManager (src/editor/undo.ts): a shallow embedding

    The class [UndoManager] is modelled as a record of its private fields,
    together with the document model it holds a reference to.  Every method
    becomes a function on that record (explicit state passing).  The model
    ([ModelPrivate]) is external: only its two entry points used here,
    [getState] and [setState], are modelled; [setState] installs the given
    state and records the options it was called with.

    A JavaScript array is a [list]; [splice], [push], [shift] and indexing
    [a[i]] are written out below with the JavaScript semantics for
    negative and out-of-range arguments.  The [console.log] tracing has no
    effect on the state and is left out. *)

From Stdlib Require Import ZArith List String Bool Lia.
Import ListNotations.
Open Scope Z_scope.

(** ** JavaScript array primitives *)

Section JsArray.
Context {A : Type}.

(** [a.length] *)
Definition js_length (l : list A) : Z := Z.of_nat (List.length l).

(** [a.splice(start, deleteCount)]: the relative start is clamped to
    [0, length] (a negative start counts from the end), the delete count
    to [0, length - start]; the array keeps what is outside that range. *)
Definition splice (l : list A) (start deleteCount : Z) : list A :=
  let n := js_length l in
  let s := if start <? 0 then Z.max (n + start) 0 else Z.min start n in
  let c := Z.max 0 (Z.min deleteCount (n - s)) in
  firstn (Z.to_nat s) l ++ skipn (Z.to_nat (s + c)) l.

(** [a.push(x)] *)
Definition push (l : list A) (x : A) : list A := l ++ [x].

(** [a.shift()]: drops the first element; does nothing on [[]]. *)
Definition shift (l : list A) : list A :=
  match l with
  | [] => []
  | _ :: t => t
  end.

(** [a[i]]: [None] stands for [undefined] (negative or too large [i]). *)
Definition js_get (l : list A) (i : Z) : option A :=
  if i <? 0 then None else nth_error l (Z.to_nat i).

(** [a[i] = x] on an index known to hold an element. *)
Fixpoint replace_at (l : list A) (i : nat) (x : A) : list A :=
  match l, i with
  | [], _ => []
  | _ :: t, O => x :: t
  | y :: t, S i' => y :: replace_at t i' x
  end.

End JsArray.

(** ** The undo manager *)

Section Undo.

(** The content of a [ModelState] and a [Selection] are opaque to the
    undo manager. *)
Context {Content Selection : Type}.

(** [ModelState]: the document content and the selection. *)
Record ModelState := mkModelState {
  content : Content;
  selection : Selection;
}.

(** The options object passed to [setState]. *)
Record SetStateOptions := mkSetStateOptions {
  silenceNotifications : bool;
  type : string;
}.

(** The document model: its live state, and the calls made to [setState]
    (most recent first). *)
Record ModelPrivate := mkModelPrivate {
  live : ModelState;
  setStateCalls : list (ModelState * SetStateOptions);
}.

(** [model.getState()]: a copy of the live state. *)
Definition getState (m : ModelPrivate) : ModelState := live m.

(** [model.setState(state, options)]: restores the model to [state]. *)
Definition setState (s : ModelState) (o : SetStateOptions) (m : ModelPrivate)
  : ModelPrivate :=
  mkModelPrivate s ((s, o) :: setStateCalls m).

(** An edit made by the host on the document (outside the undo manager). *)
Definition hostEdit (s : ModelState) (m : ModelPrivate) : ModelPrivate :=
  mkModelPrivate s (setStateCalls m).

(** [static readonly maximumDepth = 1000] *)
Definition maximumDepth : Z := 1000.

(** The private fields of [UndoManager]. *)
Record UndoManager := mkUndoManager {
  model : ModelPrivate;
  recording : bool;
  stack : list ModelState;
  index : Z;
  lastOp : string;
}.

Definition set_model (u : UndoManager) (m : ModelPrivate) : UndoManager :=
  mkUndoManager m (recording u) (stack u) (index u) (lastOp u).
Definition set_recording (u : UndoManager) (b : bool) : UndoManager :=
  mkUndoManager (model u) b (stack u) (index u) (lastOp u).
Definition set_stack (u : UndoManager) (s : list ModelState) : UndoManager :=
  mkUndoManager (model u) (recording u) s (index u) (lastOp u).
Definition set_index (u : UndoManager) (i : Z) : UndoManager :=
  mkUndoManager (model u) (recording u) (stack u) i (lastOp u).
Definition set_lastOp (u : UndoManager) (op : string) : UndoManager :=
  mkUndoManager (model u) (recording u) (stack u) (index u) op.

(** [reset()] *)
Definition reset (u : UndoManager) : UndoManager :=
  set_lastOp (set_index (set_stack u []) (-1)) EmptyString.

(** [constructor(model)]: [recording = false], then [this.reset()]. *)
Definition create (m : ModelPrivate) : UndoManager :=
  reset (mkUndoManager m false [] 0 EmptyString).

(** [startRecording()] and [stopRecording()] *)
Definition startRecording (u : UndoManager) : UndoManager :=
  set_recording u true.
Definition stopRecording (u : UndoManager) : UndoManager :=
  set_recording u false.

(** [canUndo()]: [this.index - 1 >= 0] *)
Definition canUndo (u : UndoManager) : bool := 0 <=? index u - 1.

(** [canRedo()]: [this.stack.length - 1 > this.index] *)
Definition canRedo (u : UndoManager) : bool :=
  index u <? js_length (stack u) - 1.

(** [stopCoalescing(selection?)].  A [Selection] is an object, hence
    truthy whenever it is supplied.  Assigning [.selection] on
    [this.stack[this.index]] when that is [undefined] throws a TypeError:
    the result is [None]. *)
Definition stopCoalescing (sel : option Selection) (u : UndoManager)
  : option UndoManager :=
  let u' :=
    match sel with
    | Some s =>
        if 0 <=? index u then
          match js_get (stack u) (index u) with
          | Some st =>
              Some (set_stack u (replace_at (stack u) (Z.to_nat (index u))
                                   (mkModelState (content st) s)))
          | None => None
          end
        else Some u
    | None => Some u
    end in
  match u' with
  | Some u' => Some (set_lastOp u' EmptyString)
  | None => None
  end.

(** [undo()].  [None]: [setState] would receive [undefined]. *)
Definition undo (u : UndoManager) : option (bool * UndoManager) :=
  if negb (canUndo u) then Some (false, u) else
  match js_get (stack u) (index u - 1) with
  | None => None
  | Some st =>
      let u := set_model u (setState st (mkSetStateOptions false "undo"%string) (model u)) in
      let u := set_index u (index u - 1) in
      let u := set_lastOp u EmptyString in
      Some (true, u)
  end.

(** [redo()].  [None]: [setState] would receive [undefined]. *)
Definition redo (u : UndoManager) : option (bool * UndoManager) :=
  if negb (canRedo u) then Some (false, u) else
  let u := set_index u (index u + 1) in
  match js_get (stack u) (index u) with
  | None => None
  | Some st =>
      let u := set_model u (setState st (mkSetStateOptions false "redo"%string) (model u)) in
      let u := set_lastOp u EmptyString in
      Some (true, u)
  end.

(** [pop()] *)
Definition pop (u : UndoManager) : UndoManager :=
  if negb (canUndo u) then u else
  let u := set_stack u (splice (stack u) (index u) (js_length (stack u) - index u)) in
  set_index u (index u - 1).

(** [op && op === this.lastOp]: [op] is [undefined] ([None]) or a string,
    and the empty string is falsy. *)
Definition coalesces (op : option string) (last : string) : bool :=
  match op with
  | Some s => negb (String.eqb s EmptyString) && String.eqb s last
  | None => false
  end.

(** [op ?? ''] *)
Definition nullish_default (op : option string) (d : string) : string :=
  match op with
  | Some s => s
  | None => d
  end.

(** [snapshot(op?)] *)
Definition snapshot (op : option string) (u : UndoManager) : bool * UndoManager :=
  if negb (recording u) then (false, u) else
  let u := if coalesces op (lastOp u) then pop u else u in
  (* Drop any entries that are part of the redo stack *)
  let u := set_stack u (splice (stack u) (index u + 1)
                                (js_length (stack u) - index u - 1)) in
  (* Add a new entry *)
  let u := set_stack u (push (stack u) (getState (model u))) in
  let u := set_index u (index u + 1) in
  (* Forget the oldest entry beyond the maximum depth *)
  let u := if maximumDepth <? js_length (stack u)
           then set_index (set_stack u (shift (stack u))) (index u - 1)
           else u in
  let u := set_lastOp u (nullish_default op EmptyString) in
  (true, u).

(** ** Sequences of calls *)

(** The public methods, and the host's edits of the document between
    them ([canUndo] and [canRedo] do not change the state). *)
Inductive Call :=
| CReset
| CStartRecording
| CStopRecording
| CStopCoalescing (sel : option Selection)
| CSnapshot (op : option string)
| CPop
| CUndo
| CRedo
| CHostEdit (s : ModelState).

Definition step (c : Call) (u : UndoManager) : option UndoManager :=
  match c with
  | CReset => Some (reset u)
  | CStartRecording => Some (startRecording u)
  | CStopRecording => Some (stopRecording u)
  | CStopCoalescing sel => stopCoalescing sel u
  | CSnapshot op => Some (snd (snapshot op u))
  | CPop => Some (pop u)
  | CUndo => option_map snd (undo u)
  | CRedo => option_map snd (redo u)
  | CHostEdit s => Some (set_model u (hostEdit s (model u)))
  end.

Fixpoint run (u : UndoManager) (cs : list Call) : option UndoManager :=
  match cs with
  | [] => Some u
  | c :: cs' =>
      match step c u with
      | Some u' => run u' cs'
      | None => None
      end
  end.

End Undo.

Arguments ModelState : clear implicits.
Arguments ModelPrivate : clear implicits.
Arguments UndoManager : clear implicits.
Arguments Call : clear implicits.


(** ** Well-formedness of the undo state *)

(** [-1 <= index < stack.length], and [index] is an element of the stack
    whenever the stack is non-empty. *)
Definition wf {C S : Type} (u : UndoManager C S) : Prop :=
  -1 <= index u < js_length (stack u) /\
  (0 < js_length (stack u) -> 0 <= index u).

(** [wf] as a boolean test, to evaluate on concrete states. *)
Definition wfb {C S : Type} (u : UndoManager C S) : bool :=
  (-1 <=? index u) && (index u <? js_length (stack u)) &&
  (negb (0 <? js_length (stack u)) || (0 <=? index u)).

(** The document shows the entry at the current position. *)
Definition at_current {C S : Type} (u : UndoManager C S) : Prop :=
  js_get (stack u) (index u) = Some (getState (model u)).

(** A coalescing context ([lastOp] non-empty) exists only at the top. *)
Definition top_when_coalescing {C S : Type} (u : UndoManager C S) : Prop :=
  lastOp u <> EmptyString -> index u = js_length (stack u) - 1.

(** The invariant of every reachable state. *)
Definition inv {C S : Type} (u : UndoManager C S) : Prop :=
  wf u /\ js_length (stack u) <= maximumDepth /\ top_when_coalescing u.

(** ** The eviction rule as "keep the newest [maximumDepth] entries" *)

(** The stack after a push, once the oldest entry beyond [maximumDepth]
    is dropped (the last step of [snapshot]). *)
Definition evict {A : Type} (s : list A) : list A :=
  if maximumDepth <? js_length s then shift s else s.

(** The newest [maximumDepth] elements of a list. *)
Definition lastn {A : Type} (l : list A) : list A :=
  skipn (List.length l - Z.to_nat maximumDepth) l.

(** The calls of a host that edits the document and then records it. *)
Definition host_snapshots {C S : Type} (ds : list (ModelState C S * option string))
  : list (Call C S) :=
  flat_map (fun p => [CHostEdit (fst p); CSnapshot (snd p)]) ds.

(** No tag of [ops] coalesces with the tag recorded just before it. *)
Fixpoint non_coalescing (last : string) (ops : list (option string)) : bool :=
  match ops with
  | [] => true
  | op :: ops' =>
      negb (coalesces op last) && non_coalescing (nullish_default op EmptyString) ops'
  end.

(** ** Sample inputs, with [nat] for the content and the selection *)

Definition sample_state (n : nat) : ModelState nat nat := mkModelState n n.

Definition sample_model : ModelPrivate nat nat := mkModelPrivate (sample_state 0) [].

(** A recording engine whose stack holds [sample_state 0 .. n-1], at the
    newest entry. *)
Definition sample_engine (n : nat) : UndoManager nat nat :=
  mkUndoManager sample_model true (map sample_state (seq 0 n)) (Z.of_nat n - 1) EmptyString.

(** [maximumDepth + 5] untagged edits. *)
Definition sample_edits : list (ModelState nat nat * option string) :=
  map (fun n => (sample_state n, None)) (seq 1 1005).

(** The state after [undo()] on a stack of depth 3 at position 2. *)
Definition sample_after_undo : UndoManager nat nat :=
  match undo (sample_engine 3) with
  | Some (_, u) => u
  | None => sample_engine 3
  end.

(** ** Lemmas on the array primitives *)

Section ArrayFacts.
Context {A : Type}.

Lemma js_length_app (l1 l2 : list A) :
  js_length (l1 ++ l2) = js_length l1 + js_length l2.
Proof. unfold js_length. rewrite length_app. lia. Qed.

Lemma js_length_firstn (l : list A) (i : Z) :
  0 <= i <= js_length l -> js_length (firstn (Z.to_nat i) l) = i.
Proof.
  unfold js_length. intros H. rewrite length_firstn, Nat.min_l; lia.
Qed.

Lemma js_length_shift (l : list A) :
  js_length (shift l) = Z.max 0 (js_length l - 1).
Proof. destruct l as [|x l]; unfold js_length; cbn [shift List.length]; rewrite ?Nat2Z.inj_succ; lia. Qed.

Lemma js_length_nonneg (l : list A) : 0 <= js_length l.
Proof. unfold js_length. lia. Qed.

Lemma splice_tail (l : list A) (s c : Z) :
  0 <= s <= js_length l -> c = js_length l - s ->
  splice l s c = firstn (Z.to_nat s) l.
Proof.
  intros Hs Hc. unfold splice.
  destruct (Z.ltb_spec s 0); [lia|].
  replace (Z.min s (js_length l)) with s by lia.
  replace (Z.max 0 (Z.min c (js_length l - s))) with (js_length l - s) by lia.
  replace (s + (js_length l - s)) with (js_length l) by lia.
  unfold js_length. rewrite Nat2Z.id, skipn_all, app_nil_r. reflexivity.
Qed.

Lemma js_length_replace_at (l : list A) i x :
  js_length (replace_at l i x) = js_length l.
Proof.
  unfold js_length. f_equal. revert i. induction l; intros [|i]; simpl; auto.
Qed.

Lemma js_get_some (l : list A) (i : Z) :
  0 <= i < js_length l -> exists x, js_get l i = Some x.
Proof.
  intros H. unfold js_get. destruct (Z.ltb_spec i 0); [lia|].
  destruct (nth_error l (Z.to_nat i)) eqn:E; eauto.
  apply nth_error_None in E. unfold js_length in H. lia.
Qed.

End ArrayFacts.

(** ** Lemmas on the operations *)

Section Ops.
Context {C S : Type}.
Implicit Types (u v : UndoManager C S).

Lemma wf_index_le_length u : wf u -> index u + 1 <= js_length (stack u).
Proof. unfold wf. lia. Qed.

Lemma pop_eq u :
  wf u ->
  pop u = if canUndo u
          then mkUndoManager (model u) (recording u)
                 (firstn (Z.to_nat (index u)) (stack u)) (index u - 1) (lastOp u)
          else u.
Proof.
  intros Hw. unfold pop. destruct (canUndo u) eqn:E; [|reflexivity].
  unfold canUndo in E. apply Z.leb_le in E. cbn [negb].
  unfold set_index, set_stack. cbn [stack index model recording lastOp].
  rewrite splice_tail; [reflexivity| |reflexivity]. unfold wf in Hw. lia.
Qed.

Lemma pop_fields u :
  model (pop u) = model u /\ recording (pop u) = recording u /\
  lastOp (pop u) = lastOp u.
Proof. unfold pop. destruct (canUndo u); repeat split; reflexivity. Qed.

Lemma pop_wf u : wf u -> wf (pop u) /\ js_length (stack (pop u)) <= js_length (stack u).
Proof.
  intros Hw. rewrite (pop_eq u Hw). destruct (canUndo u) eqn:E; [|split; [exact Hw|lia]].
  unfold canUndo in E. apply Z.leb_le in E. unfold wf in *. cbn [stack index].
  rewrite js_length_firstn by lia. lia.
Qed.

Lemma pop_top u :
  wf u -> canUndo u = true -> index (pop u) = js_length (stack (pop u)) - 1.
Proof.
  intros Hw E. rewrite (pop_eq u Hw), E. cbn [stack index].
  unfold canUndo in E. apply Z.leb_le in E. unfold wf in Hw.
  rewrite js_length_firstn by lia. lia.
Qed.

(** [snapshot] while recording, with the truncation written as a prefix. *)
Lemma snapshot_eq op u :
  wf u -> recording u = true ->
  snapshot op u =
  (true,
   let v := if coalesces op (lastOp u) then pop u else u in
   let s := firstn (Z.to_nat (index v + 1)) (stack v) ++ [getState (model u)] in
   if maximumDepth <? js_length s
   then mkUndoManager (model u) true (shift s) (index v)
          (nullish_default op EmptyString)
   else mkUndoManager (model u) true s (index v + 1)
          (nullish_default op EmptyString)).
Proof.
  intros Hw Hr. unfold snapshot. rewrite Hr. cbn [negb].
  set (v := if coalesces op (lastOp u) then pop u else u).
  assert (Hv : wf v /\ model v = model u /\ recording v = true).
  { subst v. destruct (coalesces op (lastOp u)).
    - destruct (pop_fields u) as (Hm & Hrec & _).
      split; [apply (pop_wf u Hw)|]. rewrite Hm, Hrec, Hr. auto.
    - auto. }
  destruct Hv as (Hv & Hm & Hrec).
  unfold set_lastOp, set_index, set_stack, push. cbn [stack index model recording lastOp].
  rewrite (splice_tail (stack v) (index v + 1)) by (unfold wf in Hv; lia).
  rewrite Hm, Hrec.
  destruct (maximumDepth <? _); cbn [stack index model recording lastOp];
    [do 2 f_equal; lia | reflexivity].
Qed.

End Ops.

Lemma js_length_nil {A : Type} : js_length (@nil A) = 0.
Proof. reflexivity. Qed.

Lemma js_length_single {A : Type} (x : A) : js_length [x] = 1.
Proof. reflexivity. Qed.

(** Closes the three parts of [inv] once the fields are rewritten. *)
Ltac close_inv :=
  unfold inv, wf, top_when_coalescing, maximumDepth in *;
  cbn [index stack lastOp model recording] in *; rewrite ?js_length_nil;
  repeat split; try lia;
  intros Hne; exfalso; apply Hne; reflexivity.

Section Invariant.
Context {C S : Type}.
Implicit Types (u v : UndoManager C S).

(** What a recording [snapshot] leaves behind. *)
Lemma snapshot_post op u :
  wf u -> recording u = true ->
  let u' := snd (snapshot op u) in
  wf u' /\ index u' = js_length (stack u') - 1 /\ 0 <= index u' /\
  (js_length (stack u) <= maximumDepth -> js_length (stack u') <= maximumDepth) /\
  model u' = model u /\ recording u' = true /\
  lastOp u' = nullish_default op EmptyString.
Proof.
  intros Hw Hr. rewrite (snapshot_eq op u Hw Hr). cbn [snd].
  set (v := if coalesces op (lastOp u) then pop u else u).
  assert (Hv : wf v /\ js_length (stack v) <= js_length (stack u)).
  { subst v. destruct (coalesces op (lastOp u)); [apply (pop_wf u Hw)|split; [exact Hw|lia]]. }
  destruct Hv as (Hv & Hlen). unfold wf in Hv.
  set (s := firstn (Z.to_nat (index v + 1)) (stack v) ++ [getState (model u)]).
  assert (Hs : js_length s = index v + 2).
  { subst s. rewrite js_length_app, js_length_firstn, js_length_single; lia. }
  destruct (Z.ltb_spec maximumDepth (js_length s)); unfold wf;
    cbn [stack index model recording lastOp]; rewrite ?js_length_shift;
    unfold maximumDepth in *; repeat split; lia.
Qed.

Lemma snapshot_inv op u : inv u -> inv (snd (snapshot op u)).
Proof.
  intros (Hw & Hb & Ht). destruct (recording u) eqn:Hr.
  - destruct (snapshot_post op u Hw Hr) as (Hw' & Htop & _ & Hb' & _).
    split; [exact Hw'|split; [exact (Hb' Hb)|intros _; exact Htop]].
  - unfold snapshot. rewrite Hr. cbn. split; auto.
Qed.

Lemma pop_inv u : inv u -> inv (pop u).
Proof.
  intros (Hw & Hb & Ht). destruct (pop_wf u Hw) as [Hw' Hle].
  split; [exact Hw'|split; [lia|]].
  destruct (canUndo u) eqn:E.
  - intros _. exact (pop_top u Hw E).
  - unfold pop. rewrite E. exact Ht.
Qed.

Lemma stopCoalescing_ok sel u :
  wf u ->
  exists u', stopCoalescing sel u = Some u' /\
    model u' = model u /\ recording u' = recording u /\ index u' = index u /\
    js_length (stack u') = js_length (stack u) /\ lastOp u' = EmptyString.
Proof.
  intros Hw. unfold stopCoalescing. destruct sel as [s|].
  - destruct (Z.leb_spec 0 (index u)).
    + destruct (js_get_some (stack u) (index u)) as [st Hst]; [unfold wf in Hw; lia|].
      rewrite Hst. eexists; split; [reflexivity|].
      cbn. rewrite js_length_replace_at. repeat split; reflexivity.
    + eexists; split; [reflexivity|]. repeat split; reflexivity.
  - eexists; split; [reflexivity|]. repeat split; reflexivity.
Qed.

Lemma undo_ok u :
  wf u -> exists b u', undo u = Some (b, u') /\
    (b = false -> u' = u) /\
    (b = true -> stack u' = stack u /\ index u' = index u - 1 /\
                 recording u' = recording u /\ lastOp u' = EmptyString /\ 1 <= index u).
Proof.
  intros Hw. unfold undo. destruct (canUndo u) eqn:E; cbn [negb].
  - unfold canUndo in E. apply Z.leb_le in E.
    destruct (js_get_some (stack u) (index u - 1)) as [st Hst]; [unfold wf in Hw; lia|].
    rewrite Hst. do 2 eexists; split; [reflexivity|].
    split; [discriminate|]. intros _. cbn. repeat split; lia.
  - do 2 eexists; split; [reflexivity|]. split; [auto|discriminate].
Qed.

Lemma redo_ok u :
  wf u -> exists b u', redo u = Some (b, u') /\
    (b = false -> u' = u) /\
    (b = true -> stack u' = stack u /\ index u' = index u + 1 /\
                 recording u' = recording u /\ lastOp u' = EmptyString /\
                 index u + 1 < js_length (stack u)).
Proof.
  intros Hw. unfold redo. destruct (canRedo u) eqn:E; cbn [negb].
  - unfold canRedo in E. apply Z.ltb_lt in E.
    destruct (js_get_some (stack u) (index u + 1)) as [st Hst]; [unfold wf in Hw; lia|].
    cbn [index stack set_index]. rewrite Hst. do 2 eexists; split; [reflexivity|].
    split; [discriminate|]. intros _. cbn. repeat split; lia.
  - do 2 eexists; split; [reflexivity|]. split; [auto|discriminate].
Qed.

Lemma step_inv c u : inv u -> exists u', step c u = Some u' /\ inv u'.
Proof.
  intros Hi. pose proof Hi as (Hw & Hb & Ht).
  destruct c as [| | |sel|op| | | |s]; cbn [step].
  - eexists; split; [reflexivity|].
    unfold reset, set_lastOp, set_index, set_stack; cbn. close_inv.
  - eexists; split; [reflexivity|]. exact Hi.
  - eexists; split; [reflexivity|]. exact Hi.
  - destruct (stopCoalescing_ok sel u Hw) as (u' & -> & _ & _ & Hi' & Hl & Ho).
    eexists; split; [reflexivity|]. unfold inv, wf, top_when_coalescing in *.
    rewrite Hi', Hl, Ho. close_inv.
  - eexists; split; [reflexivity|]. apply snapshot_inv, Hi.
  - eexists; split; [reflexivity|]. apply pop_inv, Hi.
  - destruct (undo_ok u Hw) as (b & u' & -> & Hf & Ht'). cbn.
    eexists; split; [reflexivity|]. destruct b.
    + destruct (Ht' eq_refl) as (Hs & Hi' & _ & Ho & _).
      unfold inv, wf, top_when_coalescing in *. rewrite Hs, Hi', Ho.
      close_inv.
    + rewrite (Hf eq_refl). exact Hi.
  - destruct (redo_ok u Hw) as (b & u' & -> & Hf & Ht'). cbn.
    eexists; split; [reflexivity|]. destruct b.
    + destruct (Ht' eq_refl) as (Hs & Hi' & _ & Ho & _).
      unfold inv, wf, top_when_coalescing in *. rewrite Hs, Hi', Ho.
      close_inv.
    + rewrite (Hf eq_refl). exact Hi.
  - eexists; split; [reflexivity|]. exact Hi.
Qed.

Lemma run_inv cs u : inv u -> exists u', run u cs = Some u' /\ inv u'.
Proof.
  revert u. induction cs as [|c cs IH]; intros u Hi; cbn [run].
  - eauto.
  - destruct (step_inv c u Hi) as (u1 & -> & Hi1). apply IH, Hi1.
Qed.

Lemma create_inv (m : ModelPrivate C S) : inv (create m).
Proof.
  unfold create, reset, set_lastOp, set_index, set_stack; cbn. close_inv.
Qed.

End Invariant.

Section Helpers.
Context {C S : Type}.
Implicit Types (u v : UndoManager C S).

Lemma wfb_wf u : wfb u = true -> wf u.
Proof.
  unfold wfb, wf. intros H.
  apply andb_prop in H as [H H3]. apply andb_prop in H as [H1 H2].
  apply Z.leb_le in H1. apply Z.ltb_lt in H2.
  split; [lia|]. intros Hp. apply Z.ltb_lt in Hp. rewrite Hp in H3.
  apply Z.leb_le. exact H3.
Qed.

Lemma nth_error_snoc {A : Type} (l : list A) (x : A) (n : nat) :
  n = List.length l -> nth_error (l ++ [x]) n = Some x.
Proof. intros ->. rewrite nth_error_app2, Nat.sub_diag by lia. reflexivity. Qed.

Lemma nth_error_replace_at_ne {A : Type} (l : list A) (k i : nat) (x : A) :
  i <> k -> nth_error (replace_at l k x) i = nth_error l i.
Proof.
  revert k i. induction l as [|y l IH]; intros [|k] [|i] H; cbn; auto; try lia.
Qed.

Lemma nth_error_replace_at_eq {A : Type} (l : list A) (k : nat) (x : A) :
  (k < List.length l)%nat -> nth_error (replace_at l k x) k = Some x.
Proof.
  revert k. induction l as [|y l IH]; intros [|k] H; cbn in *; auto; try lia.
  apply IH; lia.
Qed.

Lemma reset_inv u : inv (reset u).
Proof. unfold reset, set_lastOp, set_index, set_stack. close_inv. Qed.

(** The entry at the new position is the state captured by [snapshot]. *)
Lemma snapshot_top op u :
  wf u -> recording u = true ->
  js_get (stack (snd (snapshot op u))) (index (snd (snapshot op u)))
  = Some (getState (model u)).
Proof.
  intros Hw Hr. rewrite (snapshot_eq op u Hw Hr). cbn [snd].
  set (v := if coalesces op (lastOp u) then pop u else u).
  assert (Hv : wf v).
  { subst v. destruct (coalesces op (lastOp u)); [apply (pop_wf u Hw)|exact Hw]. }
  unfold wf in Hv.
  remember (firstn (Z.to_nat (index v + 1)) (stack v)) as p eqn:Ep.
  assert (Hp : js_length p = index v + 1) by (subst p; apply js_length_firstn; lia).
  unfold js_length in Hp.
  destruct (Z.ltb_spec maximumDepth (js_length (p ++ [getState (model u)])));
    cbn [stack index]; unfold js_get.
  - rewrite js_length_app, js_length_single in *. unfold js_length, maximumDepth in *.
    destruct p as [|a p']; cbn [List.length] in *; [lia|].
    destruct (Z.ltb_spec (index v) 0); [lia|].
    cbn [app shift]. apply nth_error_snoc. lia.
  - destruct (Z.ltb_spec (index v + 1) 0); [lia|]. apply nth_error_snoc. lia.
Qed.

(** A recording, non-coalescing [snapshot] at the top pushes the captured
    state and evicts beyond [maximumDepth]. *)
Lemma snapshot_push op u :
  wf u -> recording u = true -> index u = js_length (stack u) - 1 ->
  coalesces op (lastOp u) = false ->
  snd (snapshot op u) =
  mkUndoManager (model u) true (evict (stack u ++ [getState (model u)]))
    (js_length (evict (stack u ++ [getState (model u)])) - 1)
    (nullish_default op EmptyString).
Proof.
  intros Hw Hr Htop Hco. rewrite (snapshot_eq op u Hw Hr), Hco. cbn [snd].
  rewrite firstn_all2 by (unfold js_length in Htop; lia).
  unfold evict. destruct (Z.ltb_spec maximumDepth (js_length (stack u ++ [getState (model u)])));
    f_equal; rewrite ?js_length_shift, js_length_app, js_length_single in *;
    unfold maximumDepth in *; lia.
Qed.

Lemma shift_skipn {A : Type} (l : list A) : shift l = skipn 1 l.
Proof. destruct l; reflexivity. Qed.

Lemma lastn_snoc {A : Type} (l : list A) (d : A) :
  lastn (l ++ [d]) = evict (lastn l ++ [d]).
Proof.
  unfold lastn, evict. rewrite length_app. cbn [List.length].
  set (K := Z.to_nat maximumDepth).
  assert (HK : Z.of_nat K = maximumDepth) by reflexivity. clearbody K.
  destruct (Nat.ltb_spec (List.length l) K).
  - replace (List.length l - K)%nat with 0%nat by lia.
    replace (List.length l + 1 - K)%nat with 0%nat by lia. cbn [skipn].
    destruct (Z.ltb_spec maximumDepth (js_length (l ++ [d]))); [|reflexivity].
    rewrite js_length_app, js_length_single in *. unfold js_length in *. lia.
  - assert (E : skipn (List.length l - K) l ++ [d] = skipn (List.length l - K) (l ++ [d])).
    { rewrite skipn_app. replace (List.length l - K - List.length l)%nat with 0%nat by lia.
      reflexivity. }
    destruct (Z.ltb_spec maximumDepth (js_length (skipn (List.length l - K) l ++ [d]))).
    + rewrite E, shift_skipn, skipn_skipn. f_equal. lia.
    + rewrite js_length_app, js_length_single in *. unfold js_length in *.
      rewrite length_skipn in *. lia.
Qed.

End Helpers.

Section Runs.
Context {C S : Type}.
Implicit Types (u v : UndoManager C S).

(** A host that records a sequence of edits, none coalescing, keeps the
    newest [maximumDepth] of them, positioned at the newest. *)
Lemma run_host_snapshots (ds : list (ModelState C S * option string)) :
  forall (L : list (ModelState C S)) u,
  wf u -> recording u = true -> index u = js_length (stack u) - 1 ->
  stack u = lastn L -> non_coalescing (lastOp u) (map snd ds) = true ->
  exists u', run u (host_snapshots ds) = Some u' /\
    stack u' = lastn (L ++ map fst ds) /\ index u' = js_length (stack u') - 1.
Proof.
  unfold host_snapshots.
  induction ds as [|[d op] ds IH]; intros L u Hw Hr Ht Hs Hn.
  - exists u. cbn. rewrite app_nil_r. auto.
  - cbn [non_coalescing map fst snd] in Hn. apply andb_prop in Hn as [Hc Hn].
    apply negb_true_iff in Hc.
    cbn [flat_map app run step fst snd].
    set (u1 := set_model u (hostEdit d (model u))).
    rewrite (snapshot_push op u1); [|exact Hw|exact Hr|exact Ht|exact Hc].
    subst u1. cbn [model set_model hostEdit getState live stack index recording lastOp].
    rewrite Hs, <- lastn_snoc.
    destruct (IH (L ++ [d]) (mkUndoManager (mkModelPrivate d (setStateCalls (model u)))
                true (lastn (L ++ [d])) (js_length (lastn (L ++ [d])) - 1)
                (nullish_default op EmptyString)))
      as (u' & Hrun & Hs' & Ht'); cbn [stack index recording lastOp]; auto.
    + pose proof (js_length_nonneg (lastn (L ++ [d]))) as Hn0.
      unfold wf. cbn [stack index]. lia.
    + exists u'. rewrite <- app_assoc in Hs'. auto.
Qed.

End Runs.

Section MoreHelpers.
Context {C S : Type}.
Implicit Types (u v : UndoManager C S).

Lemma coalesces_empty op : coalesces op EmptyString = false.
Proof. destruct op as [s|]; cbn; [destruct (String.eqb s EmptyString)|]; reflexivity. Qed.

(** A coalescing [snapshot] at the top, with an entry below the top,
    replaces the top entry by the captured state. *)
Lemma snapshot_coalesce_top op u (l : list (ModelState C S)) (y : ModelState C S) :
  wf u -> recording u = true -> stack u = l ++ [y] ->
  index u = js_length (stack u) - 1 -> 1 <= index u ->
  js_length (stack u) <= maximumDepth ->
  coalesces op (lastOp u) = true ->
  snd (snapshot op u) =
  mkUndoManager (model u) true (l ++ [getState (model u)]) (index u)
    (nullish_default op EmptyString).
Proof.
  intros Hw Hr Hs Htop H1 Hb Hco. rewrite (snapshot_eq op u Hw Hr), Hco. cbn [snd].
  rewrite (pop_eq u Hw).
  assert (Hcu : canUndo u = true) by (unfold canUndo; apply Z.leb_le; lia).
  rewrite Hcu. cbn [stack index].
  rewrite Hs, js_length_app, js_length_single in Htop.
  unfold js_length in Htop.
  assert (Hp : firstn (Z.to_nat (index u - 1 + 1)) (firstn (Z.to_nat (index u)) (l ++ [y])) = l).
  { replace (index u - 1 + 1) with (index u) by lia.
    rewrite firstn_firstn, Nat.min_id, firstn_app, firstn_all2 by lia.
    replace (Z.to_nat (index u) - List.length l)%nat with 0%nat by lia.
    apply app_nil_r. }
  rewrite Hs, Hp.
  rewrite Hs, js_length_app, js_length_single in Hb.
  destruct (Z.ltb_spec maximumDepth (js_length (l ++ [getState (model u)]))).
  - rewrite js_length_app, js_length_single in *. lia.
  - f_equal. lia.
Qed.

(** [undo()] on a well-formed state. *)
Lemma undo_spec u :
  wf u ->
  (canUndo u = false -> undo u = Some (false, u)) /\
  (canUndo u = true ->
   exists st, js_get (stack u) (index u - 1) = Some st /\
   undo u = Some (true, mkUndoManager
                          (setState st (mkSetStateOptions false "undo"%string) (model u))
                          (recording u) (stack u) (index u - 1) EmptyString)).
Proof.
  intros Hw. unfold undo. split; intros E; rewrite E; cbn [negb]; [reflexivity|].
  unfold canUndo in E. apply Z.leb_le in E.
  destruct (js_get_some (stack u) (index u - 1)) as [st Hst]; [unfold wf in Hw; lia|].
  exists st. rewrite Hst. split; reflexivity.
Qed.

(** [redo()] on a well-formed state. *)
Lemma redo_spec u :
  wf u ->
  (canRedo u = false -> redo u = Some (false, u)) /\
  (canRedo u = true ->
   exists st, js_get (stack u) (index u + 1) = Some st /\
   redo u = Some (true, mkUndoManager
                          (setState st (mkSetStateOptions false "redo"%string) (model u))
                          (recording u) (stack u) (index u + 1) EmptyString)).
Proof.
  intros Hw. unfold redo. split; intros E; rewrite E; cbn [negb]; [reflexivity|].
  unfold canRedo in E. apply Z.ltb_lt in E.
  destruct (js_get_some (stack u) (index u + 1)) as [st Hst]; [unfold wf in Hw; lia|].
  exists st. cbn [stack index set_index]. rewrite Hst. split; reflexivity.
Qed.

Lemma reachable_inv (u0 : UndoManager C S) (cs : list (Call C S)) :
  exists u', run (reset u0) cs = Some u' /\ inv u'.
Proof. apply run_inv, reset_inv. Qed.

End MoreHelpers.

(** ** The claims *)

Section Claims.
Context {C S : Type}.
Implicit Types (u v : UndoManager C S).

(** C1 (as amended): with recording enabled, a non-empty stack holding
    fewer than [maximumDepth] entries, no redo branch and a last-operation
    tag other than "insert", [snapshot("insert")] then [snapshot("insert")]
    (the host may edit the document in between) grow the stack by exactly
    one entry, which is the state captured by the second call. *)
Theorem snapshot_insert_twice_grows_by_one u (d2 : ModelState C S) :
  wf u -> recording u = true -> 0 <= index u ->
  index u = js_length (stack u) - 1 -> js_length (stack u) < maximumDepth ->
  lastOp u <> "insert"%string ->
  exists u', run u [CSnapshot (Some "insert"%string); CHostEdit d2;
                    CSnapshot (Some "insert"%string)] = Some u' /\
    js_length (stack u') = js_length (stack u) + 1 /\
    stack u' = stack u ++ [d2] /\ index u' = index u + 1.
Proof.
  intros Hw Hr H0 Htop Hlt Hne.
  assert (Hc1 : coalesces (Some "insert"%string) (lastOp u) = false).
  { unfold coalesces. apply andb_false_intro2, String.eqb_neq. congruence. }
  cbn [run step].
  rewrite (snapshot_push _ u Hw Hr Htop Hc1).
  set (x := getState (model u)).
  assert (Hev : evict (stack u ++ [x]) = stack u ++ [x]).
  { unfold evict. rewrite js_length_app, js_length_single.
    destruct (Z.ltb_spec maximumDepth (js_length (stack u) + 1)); [lia|reflexivity]. }
  rewrite Hev. rewrite js_length_app, js_length_single.
  set (u2 := set_model (mkUndoManager (model u) true (stack u ++ [x])
                          (js_length (stack u) + 1 - 1) (nullish_default (Some "insert"%string) EmptyString))
                       (hostEdit d2 (model u))).
  assert (Hw2 : wf u2).
  { unfold wf, u2. cbn [stack index set_model]. rewrite js_length_app, js_length_single. lia. }
  rewrite (snapshot_coalesce_top _ u2 (stack u) x Hw2 eq_refl eq_refl).
  - eexists; split; [reflexivity|]. cbn [stack index u2 set_model model hostEdit getState live].
    rewrite js_length_app, js_length_single. repeat split; lia.
  - cbn [u2 stack index set_model]. rewrite js_length_app, js_length_single. lia.
  - cbn [u2 index set_model]. lia.
  - cbn [u2 stack set_model]. rewrite js_length_app, js_length_single. lia.
  - reflexivity.
Qed.

(** C2: from a freshly constructed or reset engine, after any sequence of
    calls (in particular of [snapshot] calls while recording), the stack
    holds at most [maximumDepth] entries. *)
Theorem stack_length_bounded (u0 : UndoManager C S) (cs : list (Call C S)) :
  exists u', run (reset u0) cs = Some u' /\ js_length (stack u') <= maximumDepth.
Proof.
  destruct (reachable_inv u0 cs) as (u' & Hrun & _ & Hb & _). eauto.
Qed.

(** C3: after any sequence of public calls from a freshly constructed or
    reset engine, [-1 <= index < stack.length]; when the stack is
    non-empty, [index] designates one of its entries; [index] is [-1] only
    on an empty stack. *)
Theorem position_valid (u0 : UndoManager C S) (cs : list (Call C S)) :
  exists u', run (reset u0) cs = Some u' /\
    -1 <= index u' < js_length (stack u') /\
    (0 < js_length (stack u') -> 0 <= index u' <= js_length (stack u') - 1) /\
    (index u' = -1 -> stack u' = []).
Proof.
  destruct (reachable_inv u0 cs) as (u' & Hrun & (Hr & Hnz) & _ & _).
  exists u'. split; [exact Hrun|]. split; [exact Hr|]. split; [lia|].
  intros Hm. destruct (stack u') as [|a l] eqn:E; [reflexivity|].
  exfalso. assert (0 < js_length (a :: l)) by (unfold js_length; cbn [List.length]; lia).
  lia.
Qed.

(** C4: from an empty stack with recording enabled, a host that edits the
    document and calls [snapshot] [maximumDepth + 5] times, no call
    coalescing with the previous one, is left with exactly [maximumDepth]
    entries, positioned at the newest ([maximumDepth - 1]); the entries
    are the captured states without the 5 oldest. *)
Theorem eviction_keeps_newest u (ds : list (ModelState C S * option string)) :
  wf u -> stack u = [] -> recording u = true ->
  List.length ds = Z.to_nat (maximumDepth + 5) ->
  non_coalescing (lastOp u) (map snd ds) = true ->
  exists u', run u (host_snapshots ds) = Some u' /\
    js_length (stack u') = maximumDepth /\ index u' = maximumDepth - 1 /\
    stack u' = skipn 5 (map fst ds).
Proof.
  intros Hw Hs Hr Hlen Hn.
  assert (Htop : index u = js_length (stack u) - 1).
  { unfold wf in Hw. rewrite Hs in *. rewrite js_length_nil in *. lia. }
  destruct (run_host_snapshots ds [] u Hw Hr Htop) as (u' & Hrun & Hs' & Ht');
    [rewrite Hs; reflexivity|exact Hn|].
  assert (Hst : stack u' = skipn 5 (map fst ds)).
  { rewrite Hs'. unfold lastn. cbn [app]. rewrite length_map, Hlen. reflexivity. }
  assert (Hl : js_length (stack u') = maximumDepth).
  { rewrite Hst. unfold js_length. rewrite length_skipn, length_map, Hlen.
    unfold maximumDepth. lia. }
  exists u'. repeat split; auto. lia.
Qed.

(** C5: a [snapshot] call that returns [true] leaves no entry after the
    current position: [canRedo()] is false and [redo()] does nothing. *)
Theorem snapshot_discards_redo op u u' :
  wf u -> snapshot op u = (true, u') ->
  canRedo u' = false /\ index u' = js_length (stack u') - 1 /\
  redo u' = Some (false, u').
Proof.
  intros Hw Hsn. destruct (recording u) eqn:Hr.
  - destruct (snapshot_post op u Hw Hr) as (Hw' & Htop & _).
    rewrite Hsn in Hw', Htop. cbn [snd] in Hw', Htop.
    assert (Hcr : canRedo u' = false) by (unfold canRedo; apply Z.ltb_ge; lia).
    split; [exact Hcr|split; [exact Htop|]].
    apply (proj1 (redo_spec u' Hw') Hcr).
  - unfold snapshot in Hsn. rewrite Hr in Hsn. discriminate.
Qed.

(** C6: [undo()] returns [false] and changes nothing when [canUndo()] is
    false; otherwise it restores the model, as an "undo" transition, to the
    entry at [index - 1], decrements [index], clears [lastOp], keeps the
    stack and returns [true]. *)
Theorem undo_contract u :
  wf u ->
  (canUndo u = false -> undo u = Some (false, u)) /\
  (canUndo u = true ->
   exists st, js_get (stack u) (index u - 1) = Some st /\
   undo u = Some (true, mkUndoManager
                          (setState st (mkSetStateOptions false "undo"%string) (model u))
                          (recording u) (stack u) (index u - 1) EmptyString)).
Proof. intros Hw. exact (undo_spec u Hw). Qed.

(** C7: with recording enabled, [snapshot()] then [undo()] then [redo()]
    leave the document model in the state it had right after [snapshot()]. *)
Theorem snapshot_undo_redo_roundtrip op u :
  wf u -> recording u = true ->
  let u1 := snd (snapshot op u) in
  exists b2 u2 b3 u3, undo u1 = Some (b2, u2) /\ redo u2 = Some (b3, u3) /\
    getState (model u3) = getState (model u1).
Proof.
  intros Hw Hr u1.
  destruct (snapshot_post op u Hw Hr) as (Hw1 & Htop & H0 & _ & Hm & _).
  pose proof (snapshot_top op u Hw Hr) as Hx. fold u1 in Hw1, Htop, H0, Hm, Hx.
  assert (Hcr : canRedo u1 = false) by (unfold canRedo; apply Z.ltb_ge; lia).
  destruct (canUndo u1) eqn:Hcu.
  - destruct (proj2 (undo_spec u1 Hw1) Hcu) as (st & _ & Hu).
    set (u2 := mkUndoManager (setState st (mkSetStateOptions false "undo"%string) (model u1))
                 (recording u1) (stack u1) (index u1 - 1) EmptyString).
    pose proof Hcu as H1. unfold canUndo in H1. apply Z.leb_le in H1.
    assert (Hw2 : wf u2) by (unfold wf in *; unfold u2; cbn [stack index]; lia).
    assert (Hcr2 : canRedo u2 = true)
      by (unfold canRedo; unfold u2; cbn [stack index]; apply Z.ltb_lt; lia).
    destruct (proj2 (redo_spec u2 Hw2) Hcr2) as (st' & Hst' & Hre).
    unfold u2 in Hst'; cbn [stack index] in Hst'. replace (index u1 - 1 + 1) with (index u1) in Hst' by lia.
    rewrite Hx in Hst'. injection Hst' as <-.
    do 4 eexists. split; [exact Hu|]. split; [exact Hre|].
    cbn [model getState setState live]. rewrite Hm. reflexivity.
  - do 4 eexists. split; [exact (proj1 (undo_spec u1 Hw1) Hcu)|].
    split; [exact (proj1 (redo_spec u1 Hw1) Hcr)|]. reflexivity.
Qed.

(** C8: when recording is disabled, [snapshot(op)] returns [false] and
    leaves the whole state unchanged; it returns [false] only then. *)
Theorem snapshot_recording_gate op u :
  (recording u = false -> snapshot op u = (false, u)) /\
  (fst (snapshot op u) = false -> recording u = false).
Proof.
  unfold snapshot. destruct (recording u); cbn [negb fst]; split; auto; discriminate.
Qed.

(** C9: [stopCoalescing(selection?)] clears [lastOp]; with a selection
    and a non-empty stack it replaces the selection of the current entry;
    it changes neither the stack length, the position, the other entries,
    the recording flag nor the model. *)
Theorem stopCoalescing_contract (sel : option S) u :
  wf u ->
  exists u', stopCoalescing sel u = Some u' /\
    lastOp u' = EmptyString /\ js_length (stack u') = js_length (stack u) /\
    index u' = index u /\ recording u' = recording u /\ model u' = model u /\
    (forall i, i <> Z.to_nat (index u) -> nth_error (stack u') i = nth_error (stack u) i) /\
    (sel = None \/ stack u = [] -> stack u' = stack u) /\
    (forall s, sel = Some s -> stack u <> [] ->
     exists st, nth_error (stack u) (Z.to_nat (index u)) = Some st /\
       nth_error (stack u') (Z.to_nat (index u)) = Some (mkModelState (content st) s)).
Proof.
  intros Hw. pose proof Hw as (Hr & Hnz). unfold stopCoalescing.
  destruct sel as [s|].
  - destruct (Z.leb_spec 0 (index u)).
    + destruct (js_get_some (stack u) (index u)) as [st Hst]; [lia|].
      rewrite Hst. eexists; split; [reflexivity|].
      unfold js_get in Hst. destruct (Z.ltb_spec (index u) 0); [lia|].
      cbn [stack index recording model lastOp set_lastOp set_stack].
      rewrite js_length_replace_at.
      repeat split; auto.
      * intros i Hi. apply nth_error_replace_at_ne. exact Hi.
      * intros [E|E]; [discriminate|]. rewrite E in Hr. rewrite js_length_nil in Hr. lia.
      * intros s' E _. injection E as <-. exists st. split; [exact Hst|].
        apply nth_error_replace_at_eq. unfold js_length in Hr. lia.
    + eexists; split; [reflexivity|]. cbn [stack index recording model lastOp set_lastOp].
      assert (E : stack u = []).
      { destruct (stack u) as [|a l] eqn:E; [reflexivity|].
        exfalso. assert (0 < js_length (a :: l)) by (unfold js_length; cbn [List.length]; lia).
        lia. }
      repeat split; auto. intros s' _ Hne. contradiction.
  - eexists; split; [reflexivity|]. cbn [stack index recording model lastOp set_lastOp].
    repeat split; auto. intros s' E. discriminate.
Qed.

(** C10: after any sequence of public calls from a freshly constructed or
    reset engine, a non-empty [lastOp] implies that the position is the
    newest entry; hence while a redo branch exists no tag coalesces. *)
Theorem coalescing_only_at_top (u0 : UndoManager C S) (cs : list (Call C S)) :
  exists u', run (reset u0) cs = Some u' /\
    (lastOp u' <> EmptyString -> index u' = js_length (stack u') - 1) /\
    (canRedo u' = true -> forall op, coalesces op (lastOp u') = false).
Proof.
  destruct (reachable_inv u0 cs) as (u' & Hrun & _ & _ & Ht).
  exists u'. split; [exact Hrun|]. split; [exact Ht|].
  intros Hcr op. unfold canRedo in Hcr. apply Z.ltb_lt in Hcr.
  destruct (string_dec (lastOp u') EmptyString) as [E|E].
  - rewrite E. apply coalesces_empty.
  - specialize (Ht E). lia.
Qed.

End Claims.


(** ** Further properties of the undo manager *)

Section Extras.
Context {C S : Type}.
Implicit Types (u v : UndoManager C S).

(** [pop()] does nothing without an entry before the current one (it never
    removes the only entry); otherwise it drops the current entry and the
    redo branch, leaving a non-empty stack positioned at its newest entry,
    with the tag, the recording flag and the model untouched. *)
Theorem pop_contract u :
  wf u ->
  (canUndo u = false -> pop u = u) /\
  (canUndo u = true ->
   stack (pop u) = firstn (Z.to_nat (index u)) (stack u) /\
   index (pop u) = index u - 1 /\
   index (pop u) = js_length (stack (pop u)) - 1 /\
   1 <= js_length (stack (pop u)) /\
   lastOp (pop u) = lastOp u /\ recording (pop u) = recording u /\
   model (pop u) = model u).
Proof.
  intros Hw. rewrite (pop_eq u Hw). split; intros E; rewrite E; [reflexivity|].
  cbn [stack index lastOp recording model].
  unfold canUndo in E. apply Z.leb_le in E. unfold wf in Hw.
  rewrite js_length_firstn by lia. repeat split; lia.
Qed.

(** [redo()] returns [false] and changes nothing when [canRedo()] is
    false; otherwise it restores the model, as a "redo" transition, to the
    entry at [index + 1], increments [index], clears [lastOp], keeps the
    stack and returns [true]. *)
Theorem redo_contract u :
  wf u ->
  (canRedo u = false -> redo u = Some (false, u)) /\
  (canRedo u = true ->
   exists st, js_get (stack u) (index u + 1) = Some st /\
   redo u = Some (true, mkUndoManager
                          (setState st (mkSetStateOptions false "redo"%string) (model u))
                          (recording u) (stack u) (index u + 1) EmptyString)).
Proof. intros Hw. exact (redo_spec u Hw). Qed.

(** A successful [undo()] followed by [redo()] succeeds, returns to the
    original position on the unchanged stack and shows the entry there. *)
Theorem undo_then_redo u u1 :
  wf u -> undo u = Some (true, u1) ->
  exists u2, redo u1 = Some (true, u2) /\ stack u2 = stack u /\
    index u2 = index u /\ at_current u2.
Proof.
  intros Hw Hu. destruct (canUndo u) eqn:E.
  - destruct (proj2 (undo_spec u Hw) E) as (st & _ & Hu').
    rewrite Hu in Hu'. injection Hu' as Heq. subst u1.
    unfold canUndo in E. apply Z.leb_le in E.
    set (u1 := mkUndoManager (setState st (mkSetStateOptions false "undo"%string) (model u))
                 (recording u) (stack u) (index u - 1) EmptyString).
    assert (Hw1 : wf u1) by (unfold wf in *; unfold u1; cbn [stack index]; lia).
    assert (Hc : canRedo u1 = true)
      by (unfold canRedo, wf in *; unfold u1; cbn [stack index]; apply Z.ltb_lt; lia).
    destruct (proj2 (redo_spec u1 Hw1) Hc) as (st' & Hst & Hr).
    eexists; split; [exact Hr|]. unfold u1 in *; cbn [stack index] in *.
    split; [reflexivity|]. split; [lia|].
    unfold at_current; cbn [stack index model getState setState live].
    replace (index u - 1 + 1) with (index u) in * by lia. exact Hst.
  - rewrite (proj1 (undo_spec u Hw) E) in Hu. discriminate.
Qed.

(** A successful [redo()] followed by [undo()] succeeds, returns to the
    original position on the unchanged stack and shows the entry there. *)
Theorem redo_then_undo u u1 :
  wf u -> 0 <= index u -> redo u = Some (true, u1) ->
  exists u2, undo u1 = Some (true, u2) /\ stack u2 = stack u /\
    index u2 = index u /\ at_current u2.
Proof.
  intros Hw H0 Hr. destruct (canRedo u) eqn:E.
  - destruct (proj2 (redo_spec u Hw) E) as (st & _ & Hr').
    rewrite Hr in Hr'. injection Hr' as Heq. subst u1.
    unfold canRedo in E. apply Z.ltb_lt in E.
    set (u1 := mkUndoManager (setState st (mkSetStateOptions false "redo"%string) (model u))
                 (recording u) (stack u) (index u + 1) EmptyString).
    assert (Hw1 : wf u1) by (unfold wf in *; unfold u1; cbn [stack index]; lia).
    assert (Hc : canUndo u1 = true)
      by (unfold canUndo; unfold u1; cbn [index]; apply Z.leb_le; lia).
    destruct (proj2 (undo_spec u1 Hw1) Hc) as (st' & Hst & Hu).
    eexists; split; [exact Hu|]. unfold u1 in *; cbn [stack index] in *.
    split; [reflexivity|]. split; [lia|].
    unfold at_current; cbn [stack index model getState setState live].
    replace (index u + 1 - 1) with (index u) in * by lia. exact Hst.
  - rewrite (proj1 (redo_spec u Hw) E) in Hr. discriminate.
Qed.

(** After [reset()] there is nothing to undo or redo: both queries are
    false and [undo()]/[redo()] return [false] without a change; the
    recording flag and the model are kept. *)
Theorem reset_nothing_to_undo u :
  canUndo (reset u) = false /\ canRedo (reset u) = false /\
  undo (reset u) = Some (false, reset u) /\ redo (reset u) = Some (false, reset u) /\
  recording (reset u) = recording u /\ model (reset u) = model u.
Proof. repeat split. Qed.

(** [snapshot()] never changes the document model (it only reads it with
    [getState]) nor the recording flag. *)
Theorem snapshot_keeps_model op u :
  model (snd (snapshot op u)) = model u /\ recording (snd (snapshot op u)) = recording u.
Proof.
  unfold snapshot. destruct (recording u) eqn:Hr; cbn [negb]; [|auto].
  destruct (pop_fields u) as (Hm & Hrec & _).
  destruct (coalesces op (lastOp u));
    match goal with |- context [if ?b then _ else _] => destruct b end;
    cbn; rewrite ?Hm, ?Hrec; auto.
Qed.

(** A [stopCoalescing()] between two snapshots keeps them apart: from the
    newest entry of a recording engine with room for two more entries,
    [snapshot(op1)], [stopCoalescing()], an edit, [snapshot(op2)] push
    exactly two entries, whatever the tags (the first one not coalescing
    with the tag already recorded). *)
Theorem stopCoalescing_separates_snapshots op1 op2 u (d2 : ModelState C S) :
  wf u -> recording u = true -> index u = js_length (stack u) - 1 ->
  js_length (stack u) + 2 <= maximumDepth ->
  coalesces op1 (lastOp u) = false ->
  exists u', run u [CSnapshot op1; CStopCoalescing None; CHostEdit d2; CSnapshot op2]
             = Some u' /\
    stack u' = stack u ++ [getState (model u); d2] /\ index u' = index u + 2.
Proof.
  intros Hw Hr Htop Hroom Hc1. cbn [run step].
  rewrite (snapshot_push op1 u Hw Hr Htop Hc1).
  set (x := getState (model u)).
  assert (Hev : evict (stack u ++ [x]) = stack u ++ [x]).
  { unfold evict. rewrite js_length_app, js_length_single.
    destruct (Z.ltb_spec maximumDepth (js_length (stack u) + 1)); [lia|reflexivity]. }
  rewrite Hev. cbn [stopCoalescing].
  unfold set_model, set_lastOp, hostEdit. cbn [model stack index recording lastOp setStateCalls].
  set (u2 := mkUndoManager (mkModelPrivate d2 (setStateCalls (model u))) true
               (stack u ++ [x]) (js_length (stack u ++ [x]) - 1) EmptyString).
  pose proof (js_length_nonneg (stack u)) as Hn.
  assert (Hw2 : wf u2) by (unfold wf, u2; cbn [stack index]; rewrite js_length_app, js_length_single; lia).
  rewrite (snapshot_push op2 u2 Hw2 eq_refl eq_refl (coalesces_empty op2)).
  unfold u2; cbn [stack model getState live].
  assert (Hev2 : evict ((stack u ++ [x]) ++ [d2]) = (stack u ++ [x]) ++ [d2]).
  { unfold evict. rewrite !js_length_app, !js_length_single.
    destruct (Z.ltb_spec maximumDepth (js_length (stack u) + 1 + 1)); [lia|reflexivity]. }
  rewrite Hev2. eexists; split; [reflexivity|]. cbn [stack index].
  rewrite <- app_assoc. split; [reflexivity|].
  rewrite !js_length_app, !js_length_single. lia.
Qed.

(** At full depth, a non-coalescing [snapshot] from the newest entry drops
    the oldest entry and appends the captured state: the stack keeps
    [maximumDepth] entries and the position stays on the newest. *)
Theorem snapshot_at_full_depth op u :
  wf u -> recording u = true -> index u = js_length (stack u) - 1 ->
  js_length (stack u) = maximumDepth -> coalesces op (lastOp u) = false ->
  stack (snd (snapshot op u)) = shift (stack u) ++ [getState (model u)] /\
  js_length (stack (snd (snapshot op u))) = maximumDepth /\
  index (snd (snapshot op u)) = maximumDepth - 1.
Proof.
  intros Hw Hr Htop Hfull Hc. rewrite (snapshot_push op u Hw Hr Htop Hc).
  cbn [stack index]. unfold evict.
  rewrite js_length_app, js_length_single, Hfull.
  destruct (Z.ltb_spec maximumDepth (maximumDepth + 1)); [|unfold maximumDepth in *; lia].
  assert (Hne : stack u <> []).
  { intros E. rewrite E, js_length_nil in Hfull. unfold maximumDepth in Hfull. lia. }
  destruct (stack u) as [|a l] eqn:E; [contradiction|].
  cbn [app shift]. rewrite js_length_app, js_length_single.
  unfold js_length in Hfull |- *. cbn [List.length] in Hfull |- *.
  rewrite Nat2Z.inj_succ in Hfull. unfold maximumDepth in *. repeat split; lia.
Qed.

(** Undoing right after a non-coalescing [snapshot] (from the newest entry
    of a non-empty stack with room for one more) shows again the entry that
    was current before the snapshot; the new entry stays as a redo target. *)
Theorem undo_after_snapshot op u :
  wf u -> recording u = true -> 0 <= index u -> index u = js_length (stack u) - 1 ->
  js_length (stack u) < maximumDepth -> coalesces op (lastOp u) = false ->
  exists u2, undo (snd (snapshot op u)) = Some (true, u2) /\
    js_get (stack u) (index u) = Some (getState (model u2)) /\
    stack u2 = stack u ++ [getState (model u)] /\ index u2 = index u /\
    canRedo u2 = true.
Proof.
  intros Hw Hr H0 Htop Hlt Hc. rewrite (snapshot_push op u Hw Hr Htop Hc).
  set (x := getState (model u)).
  assert (Hev : evict (stack u ++ [x]) = stack u ++ [x]).
  { unfold evict. rewrite js_length_app, js_length_single.
    destruct (Z.ltb_spec maximumDepth (js_length (stack u) + 1)); [lia|reflexivity]. }
  rewrite Hev.
  set (u1 := mkUndoManager (model u) true (stack u ++ [x])
               (js_length (stack u ++ [x]) - 1) (nullish_default op EmptyString)).
  assert (Hw1 : wf u1) by (unfold wf, u1; cbn [stack index]; rewrite js_length_app, js_length_single; lia).
  assert (Hcu : canUndo u1 = true)
    by (unfold canUndo, u1; cbn [index]; rewrite js_length_app, js_length_single; apply Z.leb_le; lia).
  destruct (proj2 (undo_spec u1 Hw1) Hcu) as (st & Hst & Hu).
  eexists; split; [exact Hu|]. unfold u1 in Hst. cbn [stack index] in Hst.
  rewrite js_length_app, js_length_single in Hst.
  replace (js_length (stack u) + 1 - 1 - 1) with (index u) in Hst by lia.
  unfold js_get in Hst |- *. destruct (Z.ltb_spec (index u) 0); [lia|].
  rewrite nth_error_app1 in Hst by (unfold js_length in Htop; lia).
  unfold u1. cbn [stack index model getState setState live canRedo].
  rewrite Hst. unfold canRedo. cbn [stack index].
  rewrite !js_length_app, !js_length_single.
  repeat split; lia.
Qed.

(** Undoing right after a coalesced [snapshot] skips the whole coalesced
    run: from the newest entry, with an entry before it, the undo shows the
    entry that preceded the current one before the snapshot. *)
Theorem undo_after_coalesced_snapshot op u :
  wf u -> recording u = true -> 1 <= index u -> index u = js_length (stack u) - 1 ->
  js_length (stack u) <= maximumDepth -> coalesces op (lastOp u) = true ->
  exists u2, undo (snd (snapshot op u)) = Some (true, u2) /\
    js_get (stack u) (index u - 1) = Some (getState (model u2)) /\
    index u2 = index u - 1 /\ js_length (stack u2) = js_length (stack u).
Proof.
  intros Hw Hr H1 Htop Hb Hc.
  destruct (exists_last (l := stack u)) as (l & y & Hs).
  { intros E. rewrite E, js_length_nil in Htop. lia. }
  rewrite (snapshot_coalesce_top op u l y Hw Hr Hs Htop H1 Hb Hc).
  set (x := getState (model u)).
  assert (Hl : js_length l = index u) by (rewrite Hs, js_length_app, js_length_single in Htop; lia).
  set (u1 := mkUndoManager (model u) true (l ++ [x]) (index u) (nullish_default op EmptyString)).
  assert (Hw1 : wf u1) by (unfold wf, u1; cbn [stack index]; rewrite js_length_app, js_length_single; lia).
  assert (Hcu : canUndo u1 = true) by (unfold canUndo, u1; cbn [index]; apply Z.leb_le; lia).
  destruct (proj2 (undo_spec u1 Hw1) Hcu) as (st & Hst & Hu).
  eexists; split; [exact Hu|]. unfold u1 in Hst; cbn [stack index] in Hst.
  unfold js_get in Hst |- *. destruct (Z.ltb_spec (index u - 1) 0); [lia|].
  rewrite nth_error_app1 in Hst by (unfold js_length in Hl; lia).
  rewrite Hs, nth_error_app1 by (unfold js_length in Hl; lia).
  unfold u1. cbn [stack index model getState setState live].
  rewrite !js_length_app, !js_length_single. split; [exact Hst|split; lia].
Qed.

(** [n] successive [undo()] calls from a non-empty, well-formed state keep
    the stack, stop at the oldest entry (position [max 0 (index - n)]), and
    the document then shows the entry at the new position whenever at least
    one of them succeeded (or it already did). *)
Theorem repeated_undo (n : nat) u :
  wf u -> 0 <= index u ->
  exists u', run u (repeat CUndo n) = Some u' /\ stack u' = stack u /\
    index u' = Z.max 0 (index u - Z.of_nat n) /\
    (at_current u \/ ((1 <= n)%nat /\ 1 <= index u) -> at_current u').
Proof.
  revert u. induction n as [|n IH]; intros u Hw H0.
  - exists u. cbn. repeat split; [lia|]. intros [H|[H _]]; [exact H|lia].
  - cbn [repeat run step]. destruct (canUndo u) eqn:E.
    + destruct (proj2 (undo_spec u Hw) E) as (st & Hst & Hu). rewrite Hu. cbn [option_map snd].
      unfold canUndo in E. apply Z.leb_le in E.
      destruct (IH (mkUndoManager (setState st (mkSetStateOptions false "undo"%string) (model u))
                     (recording u) (stack u) (index u - 1) EmptyString))
        as (u' & Hrun & Hs & Hi & Hat); cbn [stack index] in *; [unfold wf in *; cbn [stack index]; lia|lia|].
      exists u'. split; [exact Hrun|]. split; [exact Hs|]. split; [lia|].
      intros _. apply Hat. left. exact Hst.
    + rewrite (proj1 (undo_spec u Hw) E). cbn [option_map snd].
      unfold canUndo in E. apply Z.leb_gt in E.
      destruct (IH u Hw H0) as (u' & Hrun & Hs & Hi & Hat).
      exists u'. split; [exact Hrun|]. split; [exact Hs|]. split; [lia|].
      intros [H|[_ H]]; [apply Hat; left; exact H|lia].
Qed.

(** [n] successive [redo()] calls from a well-formed state keep the stack,
    stop at the newest entry (position [min (length - 1) (index + n)]), and
    the document then shows the entry at the new position whenever at least
    one of them succeeded (or it already did). *)
Theorem repeated_redo (n : nat) u :
  wf u ->
  exists u', run u (repeat CRedo n) = Some u' /\ stack u' = stack u /\
    index u' = Z.max (index u) (Z.min (js_length (stack u) - 1) (index u + Z.of_nat n)) /\
    (at_current u \/ ((1 <= n)%nat /\ index u < js_length (stack u) - 1) -> at_current u').
Proof.
  revert u. induction n as [|n IH]; intros u Hw.
  - exists u. cbn. repeat split; [lia|]. intros [H|[H _]]; [exact H|lia].
  - cbn [repeat run step]. destruct (canRedo u) eqn:E.
    + destruct (proj2 (redo_spec u Hw) E) as (st & Hst & Hr). rewrite Hr. cbn [option_map snd].
      unfold canRedo in E. apply Z.ltb_lt in E.
      destruct (IH (mkUndoManager (setState st (mkSetStateOptions false "redo"%string) (model u))
                     (recording u) (stack u) (index u + 1) EmptyString))
        as (u' & Hrun & Hs & Hi & Hat); cbn [stack index] in *; [unfold wf in *; cbn [stack index]; lia|].
      exists u'. split; [exact Hrun|]. split; [exact Hs|]. split; [lia|].
      intros _. apply Hat. left. exact Hst.
    + rewrite (proj1 (redo_spec u Hw) E). cbn [option_map snd].
      unfold canRedo in E. apply Z.ltb_ge in E.
      destruct (IH u Hw) as (u' & Hrun & Hs & Hi & Hat).
      exists u'. split; [exact Hrun|]. split; [exact Hs|]. split; [lia|].
      intros [H|[_ H]]; [apply Hat; left; exact H|lia].
Qed.

End Extras.

(** ** Witnesses and counterexamples *)

(** C1: from a freshly constructed engine, [snapshot("insert")] twice
    pushes two entries: [pop] keeps the only entry of the stack. *)
Lemma snapshot_insert_twice_fresh_counterexample :
  js_length (stack (startRecording (create sample_model))) = 0 /\
  option_map (fun u => js_length (stack u))
    (run (startRecording (create sample_model))
       [CSnapshot (Some "insert"%string); CHostEdit (sample_state 1);
        CSnapshot (Some "insert"%string)]) = Some 2.
Proof. split; reflexivity. Qed.

Lemma snapshot_insert_twice_grows_by_one_witness :
  exists u', run (sample_engine 1)
               [CSnapshot (Some "insert"%string); CHostEdit (sample_state 2);
                CSnapshot (Some "insert"%string)] = Some u' /\
    js_length (stack u') = js_length (stack (sample_engine 1)) + 1 /\
    stack u' = stack (sample_engine 1) ++ [sample_state 2] /\
    index u' = index (sample_engine 1) + 1.
Proof.
  apply snapshot_insert_twice_grows_by_one;
    [apply wfb_wf; reflexivity | reflexivity | simpl; lia | reflexivity
    | reflexivity | discriminate].
Defined.

Lemma eviction_keeps_newest_witness :
  exists u', run (startRecording (create sample_model)) (host_snapshots sample_edits) = Some u' /\
    js_length (stack u') = maximumDepth /\ index u' = maximumDepth - 1 /\
    stack u' = skipn 5 (map fst sample_edits).
Proof.
  apply eviction_keeps_newest;
    [apply wfb_wf; reflexivity | reflexivity | reflexivity
    | vm_compute; reflexivity | vm_compute; reflexivity].
Defined.

Lemma snapshot_discards_redo_witness :
  index sample_after_undo = 1 /\
  canRedo (snd (snapshot (Some "x"%string) sample_after_undo)) = false /\
  index (snd (snapshot (Some "x"%string) sample_after_undo)) =
    js_length (stack (snd (snapshot (Some "x"%string) sample_after_undo))) - 1 /\
  redo (snd (snapshot (Some "x"%string) sample_after_undo)) =
    Some (false, snd (snapshot (Some "x"%string) sample_after_undo)).
Proof.
  split; [reflexivity|].
  apply (snapshot_discards_redo (Some "x"%string) sample_after_undo);
    [apply wfb_wf; reflexivity | reflexivity].
Defined.

Lemma undo_contract_witness :
  (canUndo (sample_engine 2) = false -> undo (sample_engine 2) = Some (false, sample_engine 2)) /\
  (canUndo (sample_engine 2) = true ->
   exists st, js_get (stack (sample_engine 2)) (index (sample_engine 2) - 1) = Some st /\
   undo (sample_engine 2) =
     Some (true, mkUndoManager
                   (setState st (mkSetStateOptions false "undo"%string) (model (sample_engine 2)))
                   (recording (sample_engine 2)) (stack (sample_engine 2))
                   (index (sample_engine 2) - 1) EmptyString)).
Proof. apply undo_contract. apply wfb_wf; reflexivity. Defined.

Lemma snapshot_undo_redo_roundtrip_witness :
  let u1 := snd (snapshot (Some "insert"%string) (sample_engine 1)) in
  exists b2 u2 b3 u3, undo u1 = Some (b2, u2) /\ redo u2 = Some (b3, u3) /\
    getState (model u3) = getState (model u1).
Proof.
  apply snapshot_undo_redo_roundtrip; [apply wfb_wf; reflexivity | reflexivity].
Defined.

Lemma stopCoalescing_contract_witness :
  exists u', stopCoalescing (Some 7%nat) (sample_engine 2) = Some u' /\
    lastOp u' = EmptyString /\ js_length (stack u') = js_length (stack (sample_engine 2)) /\
    index u' = index (sample_engine 2) /\ recording u' = recording (sample_engine 2) /\
    model u' = model (sample_engine 2) /\
    (forall i, i <> Z.to_nat (index (sample_engine 2)) ->
     nth_error (stack u') i = nth_error (stack (sample_engine 2)) i) /\
    (Some 7%nat = None \/ stack (sample_engine 2) = [] -> stack u' = stack (sample_engine 2)) /\
    (forall s, Some 7%nat = Some s -> stack (sample_engine 2) <> [] ->
     exists st, nth_error (stack (sample_engine 2)) (Z.to_nat (index (sample_engine 2))) = Some st /\
       nth_error (stack u') (Z.to_nat (index (sample_engine 2))) =
         Some (mkModelState (content st) s)).
Proof. apply stopCoalescing_contract. apply wfb_wf; reflexivity. Defined.

(** ** Witnesses of the further properties *)

Lemma pop_contract_witness :
  (canUndo (sample_engine 3) = false -> pop (sample_engine 3) = sample_engine 3) /\
  (canUndo (sample_engine 3) = true ->
   stack (pop (sample_engine 3)) = firstn (Z.to_nat (index (sample_engine 3))) (stack (sample_engine 3)) /\
   index (pop (sample_engine 3)) = index (sample_engine 3) - 1 /\
   index (pop (sample_engine 3)) = js_length (stack (pop (sample_engine 3))) - 1 /\
   1 <= js_length (stack (pop (sample_engine 3))) /\
   lastOp (pop (sample_engine 3)) = lastOp (sample_engine 3) /\
   recording (pop (sample_engine 3)) = recording (sample_engine 3) /\
   model (pop (sample_engine 3)) = model (sample_engine 3)).
Proof. apply pop_contract. apply wfb_wf; reflexivity. Defined.

Lemma redo_contract_witness :
  (canRedo sample_after_undo = false -> redo sample_after_undo = Some (false, sample_after_undo)) /\
  (canRedo sample_after_undo = true ->
   exists st, js_get (stack sample_after_undo) (index sample_after_undo + 1) = Some st /\
   redo sample_after_undo =
     Some (true, mkUndoManager
                   (setState st (mkSetStateOptions false "redo"%string) (model sample_after_undo))
                   (recording sample_after_undo) (stack sample_after_undo)
                   (index sample_after_undo + 1) EmptyString)).
Proof. apply redo_contract. apply wfb_wf; reflexivity. Defined.

Lemma undo_then_redo_witness :
  exists u2, redo sample_after_undo = Some (true, u2) /\ stack u2 = stack (sample_engine 3) /\
    index u2 = index (sample_engine 3) /\ at_current u2.
Proof. apply undo_then_redo; [apply wfb_wf|]; reflexivity. Defined.

(** The state after [redo()] from [sample_after_undo]. *)
Definition sample_after_redo : UndoManager nat nat :=
  match redo sample_after_undo with
  | Some (_, u) => u
  | None => sample_after_undo
  end.

Lemma redo_then_undo_witness :
  exists u2, undo sample_after_redo = Some (true, u2) /\ stack u2 = stack sample_after_undo /\
    index u2 = index sample_after_undo /\ at_current u2.
Proof.
  apply redo_then_undo; [apply wfb_wf; reflexivity | simpl; lia | reflexivity].
Defined.

Lemma stopCoalescing_separates_snapshots_witness :
  exists u', run (startRecording (create sample_model))
               [CSnapshot (Some "insert"%string); CStopCoalescing None;
                CHostEdit (sample_state 5); CSnapshot (Some "insert"%string)] = Some u' /\
    stack u' = stack (startRecording (create sample_model)) ++
               [getState (model (startRecording (create sample_model))); sample_state 5] /\
    index u' = index (startRecording (create sample_model)) + 2.
Proof.
  apply stopCoalescing_separates_snapshots;
    [apply wfb_wf; reflexivity | reflexivity | reflexivity | apply Z.leb_le; reflexivity | reflexivity].
Defined.

Lemma snapshot_at_full_depth_witness :
  stack (snd (snapshot None (sample_engine 1000))) =
    shift (stack (sample_engine 1000)) ++ [getState (model (sample_engine 1000))] /\
  js_length (stack (snd (snapshot None (sample_engine 1000)))) = maximumDepth /\
  index (snd (snapshot None (sample_engine 1000))) = maximumDepth - 1.
Proof.
  apply snapshot_at_full_depth;
    [apply wfb_wf; vm_compute; reflexivity | reflexivity | vm_compute; reflexivity
    | vm_compute; reflexivity | reflexivity].
Defined.

Lemma undo_after_snapshot_witness :
  exists u2, undo (snd (snapshot (Some "insert"%string) (sample_engine 2))) = Some (true, u2) /\
    js_get (stack (sample_engine 2)) (index (sample_engine 2)) = Some (getState (model u2)) /\
    stack u2 = stack (sample_engine 2) ++ [getState (model (sample_engine 2))] /\
    index u2 = index (sample_engine 2) /\ canRedo u2 = true.
Proof.
  apply undo_after_snapshot;
    [apply wfb_wf; reflexivity | reflexivity | simpl; lia | reflexivity
    | reflexivity | reflexivity].
Defined.

(** A recording engine with two entries, at the newest, last tagged "insert". *)
Definition sample_inserting : UndoManager nat nat :=
  set_lastOp (sample_engine 2) "insert"%string.

Lemma undo_after_coalesced_snapshot_witness :
  exists u2, undo (snd (snapshot (Some "insert"%string) sample_inserting)) = Some (true, u2) /\
    js_get (stack sample_inserting) (index sample_inserting - 1) = Some (getState (model u2)) /\
    index u2 = index sample_inserting - 1 /\
    js_length (stack u2) = js_length (stack sample_inserting).
Proof.
  apply undo_after_coalesced_snapshot;
    [apply wfb_wf; reflexivity | reflexivity | simpl; lia | reflexivity
    | apply Z.leb_le; reflexivity | reflexivity].
Defined.

Lemma repeated_undo_witness :
  exists u', run (sample_engine 3) (repeat CUndo 2) = Some u' /\
    stack u' = stack (sample_engine 3) /\
    index u' = Z.max 0 (index (sample_engine 3) - Z.of_nat 2) /\
    (at_current (sample_engine 3) \/ ((1 <= 2)%nat /\ 1 <= index (sample_engine 3)) ->
     at_current u').
Proof. apply repeated_undo; [apply wfb_wf; reflexivity | simpl; lia]. Defined.

Lemma repeated_redo_witness :
  exists u', run sample_after_undo (repeat CRedo 2) = Some u' /\
    stack u' = stack sample_after_undo /\
    index u' = Z.max (index sample_after_undo)
                 (Z.min (js_length (stack sample_after_undo) - 1)
                        (index sample_after_undo + Z.of_nat 2)) /\
    (at_current sample_after_undo \/
     ((1 <= 2)%nat /\ index sample_after_undo < js_length (stack sample_after_undo) - 1) ->
     at_current u').
Proof. apply repeated_redo. apply wfb_wf; reflexivity. Defined.
